(** * utahfs: composition of the storage stack (cmd/internal/config/config.go)

    A shallow embedding of [config.go]: the two configuration records, the
    backend selection [StorageProvider.Store], the composition [Client.FS] and
    the loader [ClientFromFile].

    Go values are modelled as follows.
    - [string] is [String.string]; [int] and [int64] are [Z] (the code only
      compares them with constants and stores constants, so no arithmetic can
      wrap).
    - A pointer that the code tests against [nil] is an [option]; an interface
      value carries a [nil] constructor of its own.
    - A Go result pair [(v, err)] is a pair [(v, option error)], [None] being
      the [nil] error.
    - The receiver [c *Client] is a mutable cell: it is the [cfg] component of
      the state every operation threads, so the in-place assignments of [FS]
      are visible after the call.  [FS] is modelled on a non-nil receiver.
    - Reading a field through a nil pointer panics; [Panic] is an outcome of
      its own.
    - Every call of a constructor of another package is recorded in the [log]
      component of the state, newest first, and its success or failure is
      decided by an environment the whole development is parametric in. *)

From Stdlib Require Import String Ascii ZArith List Bool Lia.
Import ListNotations.

Local Open Scope string_scope.
Local Open Scope Z_scope.

(** ** Errors *)

(** [fmt.Errorf] with a constant format string: an error carrying a message. *)
Inductive error : Type :=
| Errorf (msg : string).

(** The three errors [config.go] creates itself, under the names the
    specification gives them. *)
Definition NoProviderConfigured : error :=
  Errorf "no object storage provider defined".
Definition AmbiguousProvider : error :=
  Errorf "only one object storage provider may be defined".
Definition MissingCredential : error :=
  Errorf "no password given for encryption".

(** ** Configuration records *)

Record StorageProvider : Type := mkStorageProvider {
  B2AcctId : string;
  B2AppKey : string;
  B2Bucket : string;
  B2Url : string;

  S3AppId : string;
  S3AppKey : string;
  S3Bucket : string;
  S3Url : string;
  S3Region : string;

  Retry : Z
}.

(** The field [StorageProvider] of [Client] is called [Provider] here, its
    own name being taken by the record type. *)
Record Client : Type := mkClient {
  DataDir : string;

  Provider : option StorageProvider;
  MaxWALSize : Z;

  CacheSize : Z;
  Password : string;

  NumPtrs : Z;
  DataSize : Z
}.

Definition set_DataDir (v : string) (c : Client) : Client :=
  mkClient v (Provider c) (MaxWALSize c) (CacheSize c) (Password c)
           (NumPtrs c) (DataSize c).
Definition set_MaxWALSize (v : Z) (c : Client) : Client :=
  mkClient (DataDir c) (Provider c) v (CacheSize c) (Password c)
           (NumPtrs c) (DataSize c).
Definition set_CacheSize (v : Z) (c : Client) : Client :=
  mkClient (DataDir c) (Provider c) (MaxWALSize c) v (Password c)
           (NumPtrs c) (DataSize c).
Definition set_NumPtrs (v : Z) (c : Client) : Client :=
  mkClient (DataDir c) (Provider c) (MaxWALSize c) (CacheSize c) (Password c)
           v (DataSize c).
Definition set_DataSize (v : Z) (c : Client) : Client :=
  mkClient (DataDir c) (Provider c) (MaxWALSize c) (CacheSize c) (Password c)
           (NumPtrs c) v.

(** [&Client{}]: every field at its zero value. *)
Definition zeroClient : Client := mkClient "" None 0 0 "" 0 0.

(** ** The layers of the storage stack *)

(** Modelled from the spec: the packages [persistent] and [utahfs] are not
    part of the sources at hand.  Each of their constructors is taken to
    build a wrapper around the layer it is given (sections 4.2 to 4.11), so a
    handle is the term that records how it was wired. *)
Inductive ObjectStorage : Type :=
| nilObjectStorage
| b2 (acctId appKey bucket url : string)
| s3 (appId appKey bucket url region : string)
| retry (base : ObjectStorage) (attempts : Z).

Inductive ReliableStorage : Type :=
| nilReliableStorage
| localWAL (base : ObjectStorage) (loc : string) (maxSize : Z)
| cache (base : ReliableStorage) (size : Z).

Inductive BufferedStorage : Type :=
| bufferedStorage (base : ReliableStorage).

Inductive BlockStorage : Type :=
| nilBlockStorage
| simpleBlock (base : BufferedStorage)
| integrity (base : BlockStorage) (password pinFile : string)
| encryption (base : BlockStorage) (password : string).

Inductive AppStorage : Type :=
| appStorage (base : BlockStorage).

Inductive BlockFilesystem : Type :=
| blockFilesystem (store : AppStorage) (numPtrs dataSize : Z).

(** The [nil] of each type a fallible constructor returns. *)
Class GoNil (A : Type) : Type := nil_value : A.

#[global] Instance nil_ObjectStorage : GoNil ObjectStorage := nilObjectStorage.
#[global] Instance nil_ReliableStorage : GoNil ReliableStorage :=
  nilReliableStorage.
#[global] Instance nil_BlockStorage : GoNil BlockStorage := nilBlockStorage.
#[global] Instance nil_pointer (A : Type) : GoNil (option A) := None.

(** A call into [persistent] or [utahfs], with its arguments. *)
Inductive Call : Type :=
| CNewB2 (acctId appKey bucket url : string)
| CNewS3 (appId appKey bucket url region : string)
| CNewRetry (base : ObjectStorage) (attempts : Z)
| CNewLocalWAL (base : ObjectStorage) (loc : string) (maxSize : Z)
| CNewCache (base : ReliableStorage) (size : Z)
| CNewBufferedStorage (base : ReliableStorage)
| CNewSimpleBlock (base : BufferedStorage)
| CWithIntegrity (base : BlockStorage) (password pinFile : string)
| CWithEncryption (base : BlockStorage) (password : string)
| CNewAppStorage (base : BlockStorage)
| CNewBlockFilesystem (store : AppStorage) (numPtrs dataSize : Z).

(** Calls that open a connection to a remote backend. *)
Definition is_connect (c : Call) : bool :=
  match c with CNewB2 _ _ _ _ | CNewS3 _ _ _ _ _ => true | _ => false end.

(** Calls made by [Store]: backend connection and the retry wrapper. *)
Definition is_backend (c : Call) : bool :=
  match c with
  | CNewB2 _ _ _ _ | CNewS3 _ _ _ _ _ | CNewRetry _ _ => true
  | _ => false
  end.




(** ** State, panics and sequencing *)

Record World : Type := mkWorld {
  cfg : Client;      (* the record the receiver [c] points to *)
  log : list Call    (* calls made so far, newest first *)
}.

Inductive outcome (A : Type) : Type :=
| Done (a : A)
| Panic.
Arguments Done {A} a.
Arguments Panic {A}.

Definition M (A : Type) : Type := World -> outcome A * World.

Definition ret {A : Type} (a : A) : M A := fun w => (Done a, w).

Definition bind {A B : Type} (m : M A) (k : A -> M B) : M B :=
  fun w =>
    match m w with
    | (Done a, w') => k a w'
    | (Panic, w') => (Panic, w')
    end.

Declare Scope go_scope.
Delimit Scope go_scope with go.
Notation "x <- m ;; k" := (bind m (fun x => k))
  (at level 61, m at next level, right associativity) : go_scope.
Notation "' pat <- m ;; k" := (bind m (fun x => match x with pat => k end))
  (at level 61, pat pattern, m at next level, right associativity) : go_scope.
Notation "m ;; k" := (bind m (fun _ => k))
  (at level 61, right associativity) : go_scope.
(** [if err != nil { return nil, err }] followed by [k]. *)
Notation "'check' err ;; k" :=
  (match err with
   | Some e => ret (nil_value, Some e)
   | None => k
   end)
  (at level 61, err at next level, right associativity) : go_scope.
Local Open Scope go_scope.

Definition skip : M unit := ret tt.

(** Read and write a field of the receiver. *)
Definition getf {A : Type} (f : Client -> A) : M A :=
  fun w => (Done (f (cfg w)), w).
Definition setf {A : Type} (set : A -> Client -> Client) (v : A) : M unit :=
  fun w => (Done tt, mkWorld (set v (cfg w)) (log w)).

(** Dereference a pointer; a nil pointer panics. *)
Definition deref {A : Type} (p : option A) : M A :=
  fun w => match p with Some a => (Done a, w) | None => (Panic, w) end.

(** A method with a pointer receiver whose body reads the receiver's fields. *)
Definition on {A B : Type} (p : option A) (method : A -> B) : M B :=
  a <- deref p ;; ret (method a).

(** Go's short-circuit operators over effectful operands. *)
Definition orM (a b : M bool) : M bool :=
  x <- a ;; if x then ret true else b.
Definition andM (a b : M bool) : M bool :=
  x <- a ;; if x then b else ret false.
Definition notM (a : M bool) : M bool :=
  x <- a ;; ret (negb x).

Definition isNil {A : Type} (p : option A) : bool :=
  match p with None => true | Some _ => false end.

(** The calls a run added to the log, newest first. *)
Definition new_calls (w w' : World) : list Call :=
  firstn (length (log w') - length (log w)) (log w').

(** A run from [w] ends without a panic, in a result and a state that
    satisfy [Q]. *)
Definition wp {A : Type} (m : M A) (Q : A -> World -> Prop) (w : World)
  : Prop :=
  match m w with
  | (Done a, w') => Q a w'
  | (Panic, _) => False
  end.

(** ** Backend selection *)

Definition nonempty (s : string) : bool := negb (String.eqb s "").

Definition hasB2 (sp : StorageProvider) : bool :=
  nonempty (B2AcctId sp) || nonempty (B2AppKey sp) || nonempty (B2Bucket sp)
  || nonempty (B2Url sp).

Definition hasS3 (sp : StorageProvider) : bool :=
  nonempty (S3AppId sp) || nonempty (S3AppKey sp) || nonempty (S3Bucket sp)
  || nonempty (S3Url sp) || nonempty (S3Region sp).

Section Composition.

(** The environment: whether a constructor call fails, and with which
    error, given the calls made before it. *)
Variable env : list Call -> Call -> option error.

(** [path.Join] (at its two-argument uses) and [path.Dir] of Go's standard
    library. *)
Variable path_Join : string -> string -> string.
Variable path_Dir : string -> string.

(** A fallible constructor: the call is logged; it returns [nil] and the
    environment's error, or the wrapper and a [nil] error. *)
Definition extern {A : Type} `{GoNil A} (call : Call) (v : A)
  : M (A * option error) :=
  fun w =>
    let w' := mkWorld (cfg w) (call :: log w) in
    match env (log w) call with
    | Some e => (Done (nil_value, Some e), w')
    | None => (Done (v, None), w')
    end.

(** A constructor without an error result. *)
Definition extern1 {A : Type} (call : Call) (v : A) : M A :=
  fun w => (Done v, mkWorld (cfg w) (call :: log w)).

Definition NewB2 (acctId appKey bucket url : string) :=
  extern (CNewB2 acctId appKey bucket url) (b2 acctId appKey bucket url).
Definition NewS3 (appId appKey bucket url region : string) :=
  extern (CNewS3 appId appKey bucket url region)
         (s3 appId appKey bucket url region).
Definition NewRetry (base : ObjectStorage) (attempts : Z) :=
  extern (CNewRetry base attempts) (retry base attempts).
Definition NewLocalWAL (base : ObjectStorage) (loc : string) (maxSize : Z) :=
  extern (CNewLocalWAL base loc maxSize) (localWAL base loc maxSize).
Definition NewCache (base : ReliableStorage) (size : Z) :=
  extern (CNewCache base size) (cache base size).
Definition NewBufferedStorage (base : ReliableStorage) :=
  extern1 (CNewBufferedStorage base) (bufferedStorage base).
Definition NewSimpleBlock (base : BufferedStorage) :=
  extern1 (CNewSimpleBlock base) (simpleBlock base).
Definition WithIntegrity (base : BlockStorage) (password pinFile : string) :=
  extern (CWithIntegrity base password pinFile)
         (integrity base password pinFile).
Definition WithEncryption (base : BlockStorage) (password : string) :=
  extern (CWithEncryption base password) (encryption base password).
Definition NewAppStorage (base : BlockStorage) :=
  extern1 (CNewAppStorage base) (appStorage base).
Definition NewBlockFilesystem (store : AppStorage) (numPtrs dataSize : Z) :=
  extern (CNewBlockFilesystem store numPtrs dataSize)
         (Some (blockFilesystem store numPtrs dataSize)).

Definition Store (sp : option StorageProvider)
  : M (ObjectStorage * option error) :=
  none <- orM (ret (isNil sp))
              (andM (notM (on sp hasB2)) (notM (on sp hasS3))) ;;
  if none then
    ret (nil_value, Some (Errorf "no object storage provider defined"))
  else
  both <- andM (on sp hasB2) (on sp hasS3) ;;
  if both then
    ret (nil_value,
         Some (Errorf "only one object storage provider may be defined"))
  else
  (* Connect to either B2 or S3. *)
  isB2 <- on sp hasB2 ;;
  '(out, err) <-
    (if isB2 then
       s <- deref sp ;;
       NewB2 (B2AcctId s) (B2AppKey s) (B2Bucket s) (B2Url s)
     else
       isS3 <- on sp hasS3 ;;
       if isS3 then
         s <- deref sp ;;
         NewS3 (S3AppId s) (S3AppKey s) (S3Bucket s) (S3Url s) (S3Region s)
       else ret (nil_value, None)) ;;
  check err ;;
  (* Configure retries if the user wants. *)
  s <- deref sp ;;
  if Retry s >? 1 then
    '(out, err) <- NewRetry out (Retry s) ;;
    check err ;;
    ret (out, None)
  else
    ret (out, None).

(** ** Composition of the filesystem *)

Definition FS (mountPath : string)
  : M (option BlockFilesystem * option error) :=
  dataDir <- getf DataDir ;;
  (if String.eqb dataDir "" then
     setf set_DataDir (path_Join (path_Dir mountPath) ".utahfs")
   else skip) ;;
  (* Setup object storage. *)
  sp <- getf Provider ;;
  '(store, err) <- Store sp ;;
  check err ;;
  (* Setup a local WAL. *)
  maxWALSize <- getf MaxWALSize ;;
  (if maxWALSize =? 0 then setf set_MaxWALSize (64 * 512) else skip) ;;
  dataDir <- getf DataDir ;;
  maxWALSize <- getf MaxWALSize ;;
  '(relStore, err) <-
    NewLocalWAL store (path_Join dataDir "wal") maxWALSize ;;
  check err ;;
  (* Setup caching if desired. *)
  cacheSize <- getf CacheSize ;;
  (if cacheSize =? 0 then setf set_CacheSize (32 * 1024) else skip) ;;
  cacheSize <- getf CacheSize ;;
  '(relStore, err) <-
    (if negb (cacheSize =? -1) then NewCache relStore cacheSize
     else ret (relStore, None)) ;;
  check err ;;
  (* Setup buffered block storage. *)
  buffered <- NewBufferedStorage relStore ;;
  block <- NewSimpleBlock buffered ;;
  (* Setup encryption and integrity. *)
  password <- getf Password ;;
  if String.eqb password "" then
    ret (nil_value, Some (Errorf "no password given for encryption"))
  else
  dataDir <- getf DataDir ;;
  '(block, err) <-
    WithIntegrity block password (path_Join dataDir "pin.json") ;;
  check err ;;
  password <- getf Password ;;
  '(block, err) <- WithEncryption block password ;;
  check err ;;
  (* Setup application storage. *)
  appStore <- NewAppStorage block ;;
  (* Setup block-based filesystem. *)
  numPtrs <- getf NumPtrs ;;
  (if numPtrs =? 0 then setf set_NumPtrs 12 else skip) ;;
  dataSize <- getf DataSize ;;
  (if dataSize =? 0 then setf set_DataSize (32 * 1024) else skip) ;;
  numPtrs <- getf NumPtrs ;;
  dataSize <- getf DataSize ;;
  '(bfs, err) <- NewBlockFilesystem appStore numPtrs dataSize ;;
  check err ;;
  ret (bfs, None).

(** The assignments [FS] makes to the receiver's fields, in program order:
    what a run that reaches the end has done to the configuration. *)
Definition defaults (mountPath : string) (c : Client) : Client :=
  let c := if String.eqb (DataDir c) "" then
             set_DataDir (path_Join (path_Dir mountPath) ".utahfs") c
           else c in
  let c := if MaxWALSize c =? 0 then set_MaxWALSize (64 * 512) c else c in
  let c := if CacheSize c =? 0 then set_CacheSize (32 * 1024) c else c in
  let c := if NumPtrs c =? 0 then set_NumPtrs 12 c else c in
  if DataSize c =? 0 then set_DataSize (32 * 1024) c else c.

(** ** Loading a configuration file *)

(** [ioutil.ReadFile] and [yaml.Unmarshal]: the file system and the YAML
    decoder.  [Unmarshal] fills the record it is given a pointer to. *)
Variable ioutil_ReadFile : string -> list Byte.byte * option error.
Variable yaml_Unmarshal : list Byte.byte -> Client -> Client * option error.

Definition ClientFromFile (path : string) : option Client * option error :=
  let '(raw, err) := ioutil_ReadFile path in
  match err with
  | Some e => (None, Some e)
  | None =>
      let parsed := zeroClient in
      let '(parsed, err) := yaml_Unmarshal raw parsed in
      match err with
      | Some e => (None, Some e)
      | None => (Some parsed, None)
      end
  end.

End Composition.


(** ** Vocabulary for the statements *)

(** The backend a record with exactly one credential group selects, and the
    call that connects to it. *)
Definition backend_of (s : StorageProvider) : ObjectStorage :=
  if hasB2 s then b2 (B2AcctId s) (B2AppKey s) (B2Bucket s) (B2Url s)
  else s3 (S3AppId s) (S3AppKey s) (S3Bucket s) (S3Url s) (S3Region s).

Definition connect_call (s : StorageProvider) : Call :=
  if hasB2 s then CNewB2 (B2AcctId s) (B2AppKey s) (B2Bucket s) (B2Url s)
  else CNewS3 (S3AppId s) (S3AppKey s) (S3Bucket s) (S3Url s) (S3Region s).

(** Some field of the B2 group, respectively of the S3 group, is set. *)
Definition B2_field_set (s : StorageProvider) : Prop :=
  B2AcctId s <> "" \/ B2AppKey s <> "" \/ B2Bucket s <> "" \/ B2Url s <> "".

Definition S3_field_set (s : StorageProvider) : Prop :=
  S3AppId s <> "" \/ S3AppKey s <> "" \/ S3Bucket s <> "" \/ S3Url s <> ""
  \/ S3Region s <> "".

(** ** The flow of a written payload through a composed handle *)

Inductive Form : Type := Plaintext | Ciphertext.

Inductive Layer : Type :=
| LFilesystem | LAppStorage | LEncryption | LIntegrity | LFramer | LBuffer
| LCache | LWAL | LRetry | LBackend.

Definition Form_eqb (a b : Form) : bool :=
  match a, b with
  | Plaintext, Plaintext | Ciphertext, Ciphertext => true
  | _, _ => false
  end.


(** Modelled from the spec: what each layer does to a payload on its way
    down is not in the sources at hand.  Following sections 4.8 and 4.9 the
    encryption layer receives a payload and passes its ciphertext down, the
    integrity layer computes its digest over the bytes it receives and
    passes them on, and every other layer passes on what it receives.  The
    result lists, top first, each layer of the chain with the form of the
    payload that reaches it. *)
Fixpoint flow_object (o : ObjectStorage) (f : Form) : list (Layer * Form) :=
  match o with
  | nilObjectStorage => []
  | b2 _ _ _ _ | s3 _ _ _ _ _ => [(LBackend, f)]
  | retry base _ => (LRetry, f) :: flow_object base f
  end.

Fixpoint flow_reliable (r : ReliableStorage) (f : Form)
  : list (Layer * Form) :=
  match r with
  | nilReliableStorage => []
  | localWAL base _ _ => (LWAL, f) :: flow_object base f
  | cache base _ => (LCache, f) :: flow_reliable base f
  end.

Definition flow_buffered (b : BufferedStorage) (f : Form)
  : list (Layer * Form) :=
  match b with bufferedStorage base => (LBuffer, f) :: flow_reliable base f end.

Fixpoint flow_block (b : BlockStorage) (f : Form) : list (Layer * Form) :=
  match b with
  | nilBlockStorage => []
  | simpleBlock base => (LFramer, f) :: flow_buffered base f
  | integrity base _ _ => (LIntegrity, f) :: flow_block base f
  | encryption base _ => (LEncryption, f) :: flow_block base Ciphertext
  end.

Definition flow_app (a : AppStorage) (f : Form) : list (Layer * Form) :=
  match a with appStorage base => (LAppStorage, f) :: flow_block base f end.

(** The application writes plaintext at the top of the handle. *)
Definition flow (fs : BlockFilesystem) : list (Layer * Form) :=
  match fs with
  | blockFilesystem store _ _ => (LFilesystem, Plaintext) :: flow_app store Plaintext
  end.

Definition all_form (f : Form) (l : list (Layer * Form)) : bool :=
  forallb (fun x => Form_eqb (snd x) f) l.


(** The outermost layer of an object store is the retry wrapper. *)
Definition is_retry (o : ObjectStorage) : bool :=
  match o with
  | retry _ _ => true
  | _ => false
  end.

(** ** An instance of the parameters *)

(** An environment in which every constructor succeeds, and one in which one
    given kind of call fails. *)
Definition all_succeed : list Call -> Call -> option error :=
  fun _ _ => None.

Definition wal_fails : list Call -> Call -> option error :=
  fun _ call =>
    match call with
    | CNewLocalWAL _ _ _ => Some (Errorf "wal: permission denied")
    | _ => None
    end.

(** Go's [path] functions, after the rules its documentation gives for
    [Clean]: a path is cut at its slashes, empty and [.] elements are
    dropped, [..] removes the element before it (or is kept in front of a
    relative path, or dropped at the root), and an empty result is [.]. *)
Module GoPath.

Fixpoint elements (p : string) : list string :=
  match p with
  | EmptyString => [EmptyString]
  | String c p' =>
      if Ascii.eqb c "/"%char then EmptyString :: elements p'
      else match elements p' with
           | e :: r => String c e :: r
           | [] => [String c EmptyString]
           end
  end.

(** The kept elements, last first. *)
Definition step (rooted : bool) (kept : list string) (e : string)
  : list string :=
  if String.eqb e "" then kept
  else if String.eqb e "." then kept
  else if String.eqb e ".." then
    match kept with
    | top :: rest => if String.eqb top ".." then e :: kept else rest
    | [] => if rooted then [] else [e]
    end
  else e :: kept.

Definition Clean (p : string) : string :=
  let rooted := String.prefix "/" p in
  let out := String.concat "/" (rev (fold_left (step rooted) (elements p) [])) in
  let out := if rooted then String.append "/" out else out in
  if String.eqb out "" then "." else out.

Definition Dir (p : string) : string :=
  match removelast (elements p) with
  | [] => Clean ""
  | d => Clean (String.append (String.concat "/" d) "/")
  end.

Definition Join (a b : string) : string :=
  if String.eqb a "" then (if String.eqb b "" then "" else Clean b)
  else if String.eqb b "" then Clean a
  else Clean (String.append a (String.append "/" b)).

End GoPath.

(** ** Sample configurations *)

Definition onlyB2 : StorageProvider :=
  mkStorageProvider "acct" "key" "bucket" "https://b2.example" "" "" "" "" "" 0.

Definition onlyS3_retry3 : StorageProvider :=
  mkStorageProvider "" "" "" "" "app" "key" "bucket" "https://s3.example"
                    "us-east-1" 3.

Definition partialBoth : StorageProvider :=
  mkStorageProvider "" "" "bucket" "" "" "" "" "" "us-east-1" 0.

Definition emptyProvider : StorageProvider :=
  mkStorageProvider "" "" "" "" "" "" "" "" "" 0.

Definition rawClient (sp : option StorageProvider) (password : string)
  : Client :=
  mkClient "" sp 0 0 password 0 0.

Definition noCacheClient : Client :=
  mkClient "/var/utahfs" (Some onlyB2) 0 (-1) "hunter2" 0 0.

Definition emptyLog (c : Client) : World := mkWorld c [].

Definition sampleClient : Client := rawClient (Some onlyS3_retry3) "pw".

(** The handle [FS] is expected to compose for [sampleClient] mounted at
    [/mnt/utahfs]. *)
Definition sampleHandle : BlockFilesystem :=
  blockFilesystem
    (appStorage
       (encryption
          (integrity
             (simpleBlock
                (bufferedStorage
                   (cache
                      (localWAL
                         (retry (s3 "app" "key" "bucket" "https://s3.example"
                                    "us-east-1") 3)
                         "/mnt/.utahfs/wal" 32768)
                      32768)))
             "pw" "/mnt/.utahfs/pin.json")
          "pw"))
    12 32768.

(** A file system in which every file is empty, and a decoder that accepts
    the empty document, in which no field is given. *)
Definition emptyFiles : string -> list Byte.byte * option error :=
  fun _ => ([], None).

Definition decodeEmpty : list Byte.byte -> Client -> Client * option error :=
  fun raw c =>
    match raw with
    | [] => (c, None)
    | _ => (c, Some (Errorf "yaml: unsupported document"))
    end.

(** ** The order of construction *)

(** The place of a constructor in the stack, the backend lowest. *)
Definition stage (c : Call) : nat :=
  match c with
  | CNewB2 _ _ _ _ | CNewS3 _ _ _ _ _ => 1
  | CNewRetry _ _ => 2
  | CNewLocalWAL _ _ _ => 3
  | CNewCache _ _ => 4
  | CNewBufferedStorage _ => 5
  | CNewSimpleBlock _ => 6
  | CWithIntegrity _ _ _ => 7
  | CWithEncryption _ _ => 8
  | CNewAppStorage _ => 9
  | CNewBlockFilesystem _ _ _ => 10
  end.

(** Strictly descending: of a log, newest first, it says that each call
    builds a layer above all the layers built before it. *)
Fixpoint descending (l : list nat) : bool :=
  match l with
  | a :: r =>
      match r with
      | b :: _ => Nat.ltb b a && descending r
      | [] => true
      end
  | [] => true
  end.

Definition is_b2_call (c : Call) : bool :=
  match c with CNewB2 _ _ _ _ => true | _ => false end.

Definition is_s3_call (c : Call) : bool :=
  match c with CNewS3 _ _ _ _ _ => true | _ => false end.

(** The layers of a handle, top first. *)
Definition layers (fs : BlockFilesystem) : list Layer := map fst (flow fs).

(** Exactly one credential group has a field set. *)
Definition one_group (s : StorageProvider) : bool :=
  xorb (hasB2 s) (hasS3 s).

(** An environment in which the connection to the backend is refused. *)
Definition connect_fails : list Call -> Call -> option error :=
  fun _ call =>
    if is_connect call then Some (Errorf "backend: unauthorized") else None.

(** * Properties *)

(** ** The path instance on a few inputs *)

Example GoPath_Dir_mount : GoPath.Dir "/mnt/utahfs" = "/mnt".
Proof. reflexivity. Qed.

Example GoPath_Dir_relative : GoPath.Dir "utahfs" = ".".
Proof. reflexivity. Qed.

Example GoPath_Join_mount : GoPath.Join "/mnt" ".utahfs" = "/mnt/.utahfs".
Proof. reflexivity. Qed.

Example GoPath_Join_dot : GoPath.Join "." ".utahfs" = ".utahfs".
Proof. reflexivity. Qed.

Example GoPath_Clean_dots : GoPath.Clean "a//b/./c/../../d/" = "a/d".
Proof. reflexivity. Qed.

Example GoPath_Clean_root : GoPath.Clean "/../a/../.." = "/".
Proof. reflexivity. Qed.

(** ** Credential groups *)

Lemma nonempty_true (x : string) : nonempty x = true <-> x <> "".
Proof.
  unfold nonempty. rewrite negb_true_iff.
  destruct (String.eqb_spec x ""); split; congruence.
Qed.

Lemma hasB2_true (s : StorageProvider) : hasB2 s = true <-> B2_field_set s.
Proof.
  unfold hasB2, B2_field_set.
  rewrite !orb_true_iff, !nonempty_true. tauto.
Qed.

Lemma hasS3_true (s : StorageProvider) : hasS3 s = true <-> S3_field_set s.
Proof.
  unfold hasS3, S3_field_set.
  rewrite !orb_true_iff, !nonempty_true. tauto.
Qed.

Lemma hasB2_false (s : StorageProvider) : hasB2 s = false <-> ~ B2_field_set s.
Proof.
  rewrite <- hasB2_true. destruct (hasB2 s); split; congruence.
Qed.

Lemma hasS3_false (s : StorageProvider) : hasS3 s = false <-> ~ S3_field_set s.
Proof.
  rewrite <- hasS3_true. destruct (hasS3 s); split; congruence.
Qed.

(** ** The log *)

Lemma new_calls_app (w w' : World) (l : list Call) :
  (log w' = l ++ log w)%list -> new_calls w w' = l.
Proof.
  intros E. unfold new_calls. rewrite E, length_app, Nat.add_sub.
  rewrite firstn_app, Nat.sub_diag, firstn_all. cbn. apply app_nil_r.
Qed.

Lemma new_calls_refl (w : World) : new_calls w w = [].
Proof. apply new_calls_app. reflexivity. Qed.

Section Selection.

Variable env : list Call -> Call -> option error.

(** [Store] on a record, as a function of the two group tests and of the
    environment's answers. *)
Lemma Store_Some (s : StorageProvider) (w : World) :
  Store env (Some s) w =
  if negb (hasB2 s) && negb (hasS3 s) then
    (Done (nilObjectStorage, Some NoProviderConfigured), w)
  else if hasB2 s && hasS3 s then
    (Done (nilObjectStorage, Some AmbiguousProvider), w)
  else
    let w1 := mkWorld (cfg w) (connect_call s :: log w) in
    match env (log w) (connect_call s) with
    | Some e => (Done (nilObjectStorage, Some e), w1)
    | None =>
        if Retry s >? 1 then
          let call := CNewRetry (backend_of s) (Retry s) in
          let w2 := mkWorld (cfg w) (call :: log w1) in
          match env (log w1) call with
          | Some e => (Done (nilObjectStorage, Some e), w2)
          | None => (Done (retry (backend_of s) (Retry s), None), w2)
          end
        else (Done (backend_of s, None), w1)
    end.
Proof.
  unfold Store, backend_of, connect_call, orM, andM, notM, on, deref, bind,
    ret, NewB2, NewS3, NewRetry, extern.
  destruct (hasB2 s) eqn:EB, (hasS3 s) eqn:ES; cbn; try reflexivity.
  - destruct (env (log w) _); cbn; [reflexivity|].
    destruct (Retry s >? 1); cbn; [|reflexivity].
    destruct (env _ _); reflexivity.
  - destruct (env (log w) _); cbn; [reflexivity|].
    destruct (Retry s >? 1); cbn; [|reflexivity].
    destruct (env _ _); reflexivity.
Qed.

Lemma Store_nil (w : World) :
  Store env None w = (Done (nilObjectStorage, Some NoProviderConfigured), w).
Proof. reflexivity. Qed.

(** [Store] never panics, never touches the configuration, and only adds
    backend calls to the log: none when the selection is refused, a
    connection when it succeeds, and the failing call last when a
    constructor fails. *)
Lemma Store_runs (sp : option StorageProvider) (w : World) :
  exists out err l,
    Store env sp w = (Done (out, err), mkWorld (cfg w) (l ++ log w)%list)
    /\ forallb is_backend l = true
    /\ match err with
       | None => existsb is_connect l = true
       | Some e =>
           out = nilObjectStorage
           /\ ((l = [] /\ (e = NoProviderConfigured
                            \/ e = AmbiguousProvider))
               \/ exists call l',
                    l = call :: l'
                    /\ env (l' ++ log w)%list call = Some e)
       end.
Proof.
  assert (refused : forall e,
             e = NoProviderConfigured \/ e = AmbiguousProvider ->
             exists out err l,
               (Done (nilObjectStorage, Some e), w)
               = (Done (out, err), mkWorld (cfg w) (l ++ log w)%list)
               /\ forallb is_backend l = true
               /\ match err with
                  | None => existsb is_connect l = true
                  | Some e =>
                      out = nilObjectStorage
                      /\ ((l = [] /\ (e = NoProviderConfigured
                                       \/ e = AmbiguousProvider))
                          \/ exists call l',
                               l = call :: l'
                               /\ env (l' ++ log w)%list call = Some e)
                  end).
  { intros e He. exists nilObjectStorage, (Some e), [].
    destruct w as [c h]. cbn. repeat (split; [reflexivity|]). left. auto. }
  destruct sp as [s|]; [|rewrite Store_nil; apply refused; auto].
  rewrite Store_Some.
  destruct (negb (hasB2 s) && negb (hasS3 s)); [apply refused; auto|].
  destruct (hasB2 s && hasS3 s); [apply refused; auto|].
  assert (Hc : is_connect (connect_call s) = true)
    by (unfold connect_call; destruct (hasB2 s); reflexivity).
  assert (Hb : is_backend (connect_call s) = true)
    by (unfold connect_call; destruct (hasB2 s); reflexivity).
  cbn zeta. cbn [cfg log].
  destruct (env (log w) (connect_call s)) as [e|] eqn:E1.
  { exists nilObjectStorage, (Some e), [connect_call s]. cbn.
    rewrite Hb. split; [reflexivity|]. split; [reflexivity|].
    split; [reflexivity|]. right. exists (connect_call s), []. auto. }
  destruct (Retry s >? 1).
  - destruct (env (connect_call s :: log w) _) as [e|] eqn:E2.
    + exists nilObjectStorage, (Some e),
        [CNewRetry (backend_of s) (Retry s); connect_call s].
      cbn. rewrite Hb. split; [reflexivity|]. split; [reflexivity|].
      split; [reflexivity|]. right.
      exists (CNewRetry (backend_of s) (Retry s)), [connect_call s]. auto.
    + exists (retry (backend_of s) (Retry s)), None,
        [CNewRetry (backend_of s) (Retry s); connect_call s].
      cbn. rewrite Hb, Hc. auto.
  - exists (backend_of s), None, [connect_call s]. cbn. rewrite Hb, Hc.
    auto.
Qed.

(** C3.  A record in which both credential groups have at least one field
    set, however partially each is filled, makes [Store] fail with the
    ambiguous-provider error; the state is returned as it was, so no
    backend call has been made. *)
Theorem Store_both_groups_ambiguous (s : StorageProvider) (w : World) :
  B2_field_set s -> S3_field_set s ->
  Store env (Some s) w
  = (Done (nilObjectStorage, Some AmbiguousProvider), w)
  /\ new_calls w (snd (Store env (Some s) w)) = [].
Proof.
  intros HB HS. apply hasB2_true in HB. apply hasS3_true in HS.
  rewrite Store_Some, HB, HS. cbn. split; [reflexivity|].
  apply new_calls_refl.
Qed.

(** C4.  A record in which neither credential group has any field set
    makes [Store] fail with the no-provider error; the state is returned
    as it was, so no backend call has been made. *)
Theorem Store_no_group_no_provider (s : StorageProvider) (w : World) :
  ~ B2_field_set s -> ~ S3_field_set s ->
  Store env (Some s) w
  = (Done (nilObjectStorage, Some NoProviderConfigured), w)
  /\ new_calls w (snd (Store env (Some s) w)) = [].
Proof.
  intros HB HS. apply hasB2_false in HB. apply hasS3_false in HS.
  rewrite Store_Some, HB, HS. cbn. split; [reflexivity|].
  apply new_calls_refl.
Qed.

(** C5.  When [Store] succeeds, its result is the connected backend
    wrapped by the retry decorator with the configured bound if the bound
    exceeds 1, and the connected backend itself otherwise (bound 0, 1 or
    negative); the retry constructor is called in the first case only. *)
Theorem Store_retry_exactly_above_one
  (s : StorageProvider) (w w' : World) (out : ObjectStorage) :
  Store env (Some s) w = (Done (out, None), w') ->
  is_retry (backend_of s) = false
  /\ is_retry out = (Retry s >? 1)
  /\ (1 < Retry s ->
      out = retry (backend_of s) (Retry s)
      /\ new_calls w w'
         = [CNewRetry (backend_of s) (Retry s); connect_call s])
  /\ (Retry s <= 1 ->
      out = backend_of s /\ new_calls w w' = [connect_call s]).
Proof.
  rewrite Store_Some. intros H.
  assert (HB : is_retry (backend_of s) = false)
    by (unfold backend_of; destruct (hasB2 s); reflexivity).
  split; [exact HB|].
  destruct (negb (hasB2 s) && negb (hasS3 s)); [discriminate|].
  destruct (hasB2 s && hasS3 s); [discriminate|].
  cbn zeta in H.
  destruct (env (log w) (connect_call s)); [discriminate|].
  destruct (Z.gtb_spec (Retry s) 1) as [Hgt|Hle].
  - cbn [log] in H. destruct (env _ _); [discriminate|].
    injection H as <- <-. cbn [is_retry].
    split; [reflexivity|]. split; [|lia].
    intros _. split; [reflexivity|].
    apply new_calls_app. reflexivity.
  - injection H as <- <-.
    split; [exact HB|]. split; [lia|].
    intros _. split; [reflexivity|].
    apply new_calls_app. reflexivity.
Qed.

End Selection.

(** ** Rules for runs *)

Lemma wp_ret {A : Type} (a : A) (Q : A -> World -> Prop) (w : World) :
  Q a w -> wp (ret a) Q w.
Proof. exact (fun H => H). Qed.

Lemma wp_bind {A B : Type} (m : M A) (k : A -> M B)
      (Q : B -> World -> Prop) (w : World) :
  wp m (fun a w' => wp (k a) Q w') w -> wp (bind m k) Q w.
Proof. unfold wp, bind. destruct (m w) as [[a|] w']; auto. Qed.

Lemma wp_getf {A : Type} (f : Client -> A) (Q : A -> World -> Prop)
      (w : World) :
  Q (f (cfg w)) w -> wp (getf f) Q w.
Proof. exact (fun H => H). Qed.

(** A conditional assignment to a field: the new record is named. *)
Lemma wp_when {A : Type} (b : bool) (set : A -> Client -> Client) (v : A)
      (Q : unit -> World -> Prop) (w : World) :
  (forall c', c' = (if b then set v (cfg w) else cfg w) ->
              Q tt (mkWorld c' (log w))) ->
  wp (if b then setf set v else skip) Q w.
Proof.
  intros H. destruct w as [c h].
  destruct b; unfold wp; cbn; apply H; reflexivity.
Qed.

Lemma wp_extern1 {A : Type} (call : Call) (v : A) (Q : A -> World -> Prop)
      (w : World) :
  Q v (mkWorld (cfg w) (call :: log w)) -> wp (extern1 call v) Q w.
Proof. exact (fun H => H). Qed.

Lemma wp_result {A : Type} (m : M A) (Q : A -> World -> Prop) (w : World) :
  wp m Q w -> exists a w', m w = (Done a, w') /\ Q a w'.
Proof. unfold wp. destruct (m w) as [[a|] w']; [eauto|tauto]. Qed.

Lemma wp_at {A : Type} (m : M A) (Q : A -> World -> Prop) (w w' : World)
      (a : A) :
  wp m Q w -> m w = (Done a, w') -> Q a w'.
Proof. unfold wp. intros H E. rewrite E in H. exact H. Qed.

Section Rules.

Variable env : list Call -> Call -> option error.

Lemma wp_extern {A : Type} `{GoNil A} (call : Call) (v : A)
      (Q : A * option error -> World -> Prop) (w : World) :
  (forall e, env (log w) call = Some e ->
             Q (nil_value, Some e) (mkWorld (cfg w) (call :: log w))) ->
  (env (log w) call = None ->
   Q (v, None) (mkWorld (cfg w) (call :: log w))) ->
  wp (extern env call v) Q w.
Proof.
  intros H1 H2. unfold wp, extern. destruct (env (log w) call); auto.
Qed.

Lemma wp_Store (sp : option StorageProvider)
      (Q : ObjectStorage * option error -> World -> Prop) (w : World) :
  (forall out err l,
      Store env sp w = (Done (out, err), mkWorld (cfg w) (l ++ log w)%list) ->
      forallb is_backend l = true ->
      match err with
      | None => existsb is_connect l = true
      | Some e =>
          out = nilObjectStorage
          /\ ((l = [] /\ (e = NoProviderConfigured
                          \/ e = AmbiguousProvider))
              \/ exists call l',
                   l = call :: l'
                   /\ env (l' ++ log w)%list call = Some e)
      end ->
      Q (out, err) (mkWorld (cfg w) (l ++ log w)%list)) ->
  wp (Store env sp) Q w.
Proof.
  intros H. destruct (Store_runs env sp w) as (out & err & l & E & Hl & Hr).
  unfold wp. rewrite E. auto.
Qed.

End Rules.

(** One step of a run of [FS]. *)
Ltac wp_step :=
  lazymatch goal with
  | |- wp (bind _ _) _ _ => apply wp_bind
  | |- wp (ret _) _ _ => apply wp_ret
  | |- wp (getf _) _ _ => apply wp_getf
  | |- wp (if _ then setf _ _ else skip) _ _ =>
      apply wp_when;
      let c := fresh "c" in let E := fresh "Ec" in intros c E
  | |- wp (Store _ _) _ _ =>
      apply wp_Store;
      let out := fresh "store" in let err := fresh "err" in
      let l := fresh "l" in let E := fresh "ES" in
      let Hl := fresh "Hl" in let Hr := fresh "Hr" in
      intros out err l E Hl Hr
  | |- wp (extern _ _ _) _ _ =>
      apply wp_extern;
      [ let e := fresh "e" in let E := fresh "Ee" in intros e E
      | let E := fresh "Eo" in intros E ]
  | |- wp (extern1 _ _) _ _ => apply wp_extern1
  | |- wp (match ?e with Some _ => _ | None => _ end) _ _ => destruct e
  | |- wp (if ?b then _ else _) _ _ =>
      let E := fresh "Eb" in destruct b eqn:E
  end; cbn [cfg log] in *.

Ltac wp_walk :=
  unfold FS, NewLocalWAL, NewCache, NewBufferedStorage, NewSimpleBlock,
    WithIntegrity, WithEncryption, NewAppStorage, NewBlockFilesystem;
  repeat wp_step.

(** Decide the tests of the conditional assignments met on the way, oldest
    record last, and replace each named record by its value. *)
Ltac cfg_cases :=
  repeat match goal with
         | E : ?c = (if ?b then _ else _) |- _ =>
             let Eb := fresh "Et" in
             destruct b eqn:Eb; subst c
         end;
  cbn [cfg log DataDir Provider MaxWALSize CacheSize Password NumPtrs
       DataSize set_DataDir set_MaxWALSize set_CacheSize set_NumPtrs
       set_DataSize] in *.

(** The calls a run added, read off the log. *)
Ltac calls :=
  repeat match goal with
         | |- context [new_calls ?w ?w'] =>
             erewrite (new_calls_app w w')
               by (cbn [log];
                   first [ rewrite ?app_comm_cons; reflexivity
                         | exact (eq_refl : log w = ([] ++ log w)%list) ])
         end.

(** ** Facts about logs *)




Lemma wp_snd {A : Type} (m : M A) (P : World -> Prop) (w : World) :
  wp m (fun _ w' => P w') w -> P (snd (m w)).
Proof. unfold wp. destruct (m w) as [[a|] w']; [auto|tauto]. Qed.

(** ** Layers below the encryption layer *)

Lemma flow_object_form (o : ObjectStorage) (f : Form) :
  all_form f (flow_object o f) = true.
Proof.
  induction o as [| | |base IH n]; cbn; try reflexivity.
  - destruct f; reflexivity.
  - destruct f; reflexivity.
  - unfold all_form in IH. rewrite IH. destruct f; reflexivity.
Qed.

Lemma flow_reliable_form (r : ReliableStorage) (f : Form) :
  all_form f (flow_reliable r f) = true.
Proof.
  induction r as [|base loc n|base IH n]; cbn; try reflexivity.
  - pose proof (flow_object_form base f) as H. unfold all_form in H.
    rewrite H. destruct f; reflexivity.
  - unfold all_form in IH. rewrite IH. destruct f; reflexivity.
Qed.


Section Filesystem.

Variable env : list Call -> Call -> option error.
Variable path_Join : string -> string -> string.
Variable path_Dir : string -> string.

(** C2.  In every handle [FS] returns, the encryption layer directly
    wraps the integrity layer, which wraps the block framer: the
    integrity constructor was called first, on the framed store, and the
    encryption constructor on its result, both with the configured
    password.  A payload written at the top is hence plaintext down to
    the encryption layer and ciphertext at the integrity layer and at
    every layer below. *)
Theorem FS_encryption_wraps_integrity
  (mountPath : string) (w w' : World) (fs : BlockFilesystem) :
  FS env path_Join path_Dir mountPath w = (Done (Some fs, None), w') ->
  exists rel pin numPtrs dataSize c1 c2 older,
    let pw := Password (cfg w) in
    let framed := simpleBlock (bufferedStorage rel) in
    fs = blockFilesystem
           (appStorage (encryption (integrity framed pw pin) pw))
           numPtrs dataSize
    /\ log w' = c1 :: c2 :: CWithEncryption (integrity framed pw pin) pw
                :: CWithIntegrity framed pw pin :: older
    /\ flow fs = ([(LFilesystem, Plaintext); (LAppStorage, Plaintext);
                   (LEncryption, Plaintext); (LIntegrity, Ciphertext);
                   (LFramer, Ciphertext); (LBuffer, Ciphertext)]
                  ++ flow_reliable rel Ciphertext)%list
    /\ all_form Ciphertext (flow_reliable rel Ciphertext) = true.
Proof.
  intros H.
  refine (wp_at (FS env path_Join path_Dir mountPath)
            (fun r w' => forall fs, r = (Some fs, None) -> _) w w' _ _ H fs
            eq_refl).
  clear. wp_walk; intros fs Hfs; try discriminate.
  all: injection Hfs as <-; cfg_cases.
  all: do 7 eexists; cbn zeta.
  all: split; [reflexivity|]; split; [reflexivity|].
  all: split; [reflexivity|apply flow_reliable_form].
Qed.


(** Turn recorded tests on integers into equations and disequations. *)
Ltac props :=
  repeat match goal with
         | H : negb _ = true |- _ => apply negb_true_iff in H
         | H : negb _ = false |- _ => apply negb_false_iff in H
         | H : (_ =? _) = true |- _ => apply Z.eqb_eq in H
         | H : (_ =? _) = false |- _ => apply Z.eqb_neq in H
         end.

(** Rewrite the tests of [defaults] with their recorded values. *)
Ltac settle_tests :=
  repeat (match goal with
          | H : ?b = _ |- context [if ?b then _ else _] => rewrite H
          end;
          cbn [cfg log DataDir Provider MaxWALSize CacheSize Password NumPtrs
               DataSize set_DataDir set_MaxWALSize set_CacheSize set_NumPtrs
               set_DataSize]).

(** A run of [FS] that reaches the end leaves the receiver as [defaults]
    describes. *)
Lemma FS_success_defaults
  (mountPath : string) (w w' : World) (fs : option BlockFilesystem) :
  FS env path_Join path_Dir mountPath w = (Done (fs, None), w') ->
  cfg w' = defaults path_Join path_Dir mountPath (cfg w).
Proof.
  intros H.
  refine (wp_at (FS env path_Join path_Dir mountPath)
            (fun r w' => snd r = None ->
               cfg w' = defaults path_Join path_Dir mountPath (cfg w))
            w w' _ _ H eq_refl).
  clear. wp_walk; cbn [snd]; intros Hn; try discriminate.
  all: cfg_cases; unfold defaults; settle_tests; reflexivity.
Qed.


(** C7, as the code has it.  [FS] assigns the defaults to the record the
    receiver points to.  A run that fails returns a nil handle; it leaves
    the password and the provider as they were, has replaced an empty data
    directory, and leaves each sizing field either as it was or, if it was
    zero and its assignment was reached, at its default. *)
Theorem FS_failure_effects
  (mountPath : string) (w w' : World)
  (r : option BlockFilesystem * option error) :
  FS env path_Join path_Dir mountPath w = (Done r, w') ->
  snd r <> None ->
  let c := cfg w in
  let c' := cfg w' in
  fst r = None
  /\ Password c' = Password c
  /\ Provider c' = Provider c
  /\ DataDir c' = (if String.eqb (DataDir c) "" then
                     path_Join (path_Dir mountPath) ".utahfs"
                   else DataDir c)
  /\ (MaxWALSize c' = MaxWALSize c
      \/ (MaxWALSize c = 0 /\ MaxWALSize c' = 64 * 512))
  /\ (CacheSize c' = CacheSize c
      \/ (CacheSize c = 0 /\ CacheSize c' = 32 * 1024))
  /\ (NumPtrs c' = NumPtrs c \/ (NumPtrs c = 0 /\ NumPtrs c' = 12))
  /\ (DataSize c' = DataSize c
      \/ (DataSize c = 0 /\ DataSize c' = 32 * 1024)).
Proof.
  intros H.
  refine (wp_at (FS env path_Join path_Dir mountPath)
            (fun r w' => snd r <> None -> _) w w' r _ H).
  clear. wp_walk; cbn [snd]; intros Hn; try congruence.
  all: cfg_cases; cbn zeta; settle_tests; props.
  all: cbn [fst cfg DataDir Provider MaxWALSize CacheSize Password NumPtrs
            DataSize].
  all: repeat (split; [reflexivity|]).
  all: repeat split; auto.
Qed.

(** [FS] never panics: from every state it returns a result pair. *)
Lemma FS_total (mountPath : string) (w : World) :
  exists r w', FS env path_Join path_Dir mountPath w = (Done r, w').
Proof.
  assert (G : wp (FS env path_Join path_Dir mountPath) (fun _ _ => True) w)
    by (wp_walk; exact I).
  destruct (wp_result _ _ _ G) as (r & w' & E & _). eauto.
Qed.

(** On a record in which no default is left to assign, [FS] leaves the
    record as it is, however far it gets. *)
Lemma FS_settled (mountPath : string) (w : World) :
  (DataDir (cfg w) <> ""%string
   \/ path_Join (path_Dir mountPath) ".utahfs" = ""%string) ->
  MaxWALSize (cfg w) <> 0 -> CacheSize (cfg w) <> 0 ->
  NumPtrs (cfg w) <> 0 -> DataSize (cfg w) <> 0 ->
  cfg (snd (FS env path_Join path_Dir mountPath w)) = cfg w.
Proof.
  intros Hd Hm Hc Hn Hs.
  apply (wp_snd (FS env path_Join path_Dir mountPath)
           (fun w' => cfg w' = cfg w)).
  wp_walk; cfg_cases; props; try congruence.
  all: match goal with
       | E : String.eqb (DataDir _) _ = true |- _ =>
           apply String.eqb_eq in E;
           destruct Hd as [Hd|Hd]; [congruence|rewrite Hd];
           clear - E; destruct (cfg w); cbn in E; rewrite E; reflexivity
       end.
Qed.

Lemma defaults_settled (mountPath : string) (c : Client) :
  let d := defaults path_Join path_Dir mountPath c in
  (DataDir d <> ""%string
   \/ path_Join (path_Dir mountPath) ".utahfs" = ""%string)
  /\ MaxWALSize d <> 0 /\ CacheSize d <> 0
  /\ NumPtrs d <> 0 /\ DataSize d <> 0.
Proof.
  destruct c as [dd sp mw cs pw np ds]. unfold defaults. cbn.
  destruct (String.eqb_spec dd ""); cbn;
    destruct (Z.eqb_spec mw 0); cbn;
    destruct (Z.eqb_spec cs 0); cbn;
    destruct (Z.eqb_spec np 0); cbn;
    destruct (Z.eqb_spec ds 0); cbn.
  all: repeat split; try lia; try assumption.
  all: try (left; assumption).
  all: destruct (String.eqb_spec (path_Join (path_Dir mountPath) ".utahfs")
                                 ""); [right|left]; assumption.
Qed.

Lemma defaults_fixed (mountPath : string) (c : Client) :
  (DataDir c <> ""%string
   \/ path_Join (path_Dir mountPath) ".utahfs" = ""%string) ->
  MaxWALSize c <> 0 -> CacheSize c <> 0 ->
  NumPtrs c <> 0 -> DataSize c <> 0 ->
  defaults path_Join path_Dir mountPath c = c.
Proof.
  destruct c as [dd sp mw cs pw np ds].
  cbn [DataDir MaxWALSize CacheSize NumPtrs DataSize].
  intros Hd Hm Hc Hn Hs.
  apply Z.eqb_neq in Hm, Hc, Hn, Hs.
  unfold defaults. cbn [DataDir].
  destruct (String.eqb_spec dd "") as [E|E];
    unfold set_DataDir;
    cbn [DataDir Provider MaxWALSize CacheSize Password NumPtrs DataSize];
    rewrite Hm; cbn [CacheSize]; rewrite Hc; cbn [NumPtrs]; rewrite Hn;
    cbn [DataSize]; rewrite Hs; [|reflexivity].
  destruct Hd as [Hd|Hd]; [congruence|]. rewrite Hd, E. reflexivity.
Qed.

(** C8.  Defaulting is idempotent for a fixed mount path.  The record a
    complete run of [FS] leaves behind is [defaults] of the record it
    started from; applying the assignments again to that record changes no
    field; and a further run of [FS] on it, with any log behind it and
    whether it succeeds or fails, leaves it as it is. *)
Theorem defaults_idempotent
  (mountPath : string) (c : Client) (h : list Call) :
  let d := defaults path_Join path_Dir mountPath c in
  (forall fs w',
      FS env path_Join path_Dir mountPath (mkWorld c h) = (Done (fs, None), w') ->
      cfg w' = d)
  /\ defaults path_Join path_Dir mountPath d = d
  /\ cfg (snd (FS env path_Join path_Dir mountPath (mkWorld d h))) = d.
Proof.
  cbn zeta.
  destruct (defaults_settled mountPath c) as (Hd & Hm & Hc & Hn & Hs).
  split; [|split].
  - intros fs w' E. apply (FS_success_defaults _ _ _ _ E).
  - apply defaults_fixed; assumption.
  - apply (FS_settled mountPath
             (mkWorld (defaults path_Join path_Dir mountPath c) h));
      assumption.
Qed.

(** Without a storage-provider record [FS] stops at the backend selection. *)
Lemma FS_without_provider (mountPath : string) (w : World) :
  Provider (cfg w) = None ->
  fst (FS env path_Join path_Dir mountPath w)
  = Done (None, Some NoProviderConfigured).
Proof.
  intros Hp.
  assert (G : wp (FS env path_Join path_Dir mountPath)
                (fun r _ => r = (None, Some NoProviderConfigured)) w).
  { unfold FS. do 7 wp_step. cfg_cases.
    all: rewrite Hp; unfold wp at 1; rewrite Store_nil; reflexivity. }
  destruct (wp_result _ _ _ G) as (r & w' & E & ->). rewrite E. reflexivity.
Qed.

(** C9.  [Store] on a nil receiver returns the no-provider error without
    panicking and leaves the state as it was; it behaves exactly as on a
    record with every credential field empty; and so [FS] on a
    configuration without a provider record returns that error. *)
Theorem Store_nil_receiver
  (mountPath dataDir password : string) (maxWAL cacheSize numPtrs dataSize : Z)
  (w : World) :
  Store env None w
  = (Done (nilObjectStorage, Some NoProviderConfigured), w)
  /\ Store env None w = Store env (Some emptyProvider) w
  /\ fst (FS env path_Join path_Dir mountPath
             (mkWorld (mkClient dataDir None maxWAL cacheSize password
                                numPtrs dataSize)
                      (log w)))
     = Done (None, Some NoProviderConfigured).
Proof.
  split; [apply Store_nil|]. split.
  - rewrite Store_nil, Store_Some. reflexivity.
  - apply FS_without_provider. reflexivity.
Qed.

(** Without a password [FS] returns an error and a nil handle. *)
Lemma FS_without_password (mountPath : string) (w : World) :
  Password (cfg w) = ""%string ->
  exists e, fst (FS env path_Join path_Dir mountPath w) = Done (None, Some e).
Proof.
  intros Hpw.
  assert (G : wp (FS env path_Join path_Dir mountPath)
                (fun r _ => exists e, r = (None, Some e)) w).
  { wp_walk; cfg_cases.
    all: try match goal with
             | Eb : String.eqb (Password _) _ = false |- _ =>
                 rewrite Hpw in Eb; discriminate
             end.
    all: eexists; reflexivity. }
  destruct (wp_result _ _ _ G) as (r & w' & E & e & ->).
  exists e. rewrite E. reflexivity.
Qed.

End Filesystem.

(** ** Loading *)

Section Loading.

Variable env : list Call -> Call -> option error.
Variable path_Join : string -> string -> string.
Variable path_Dir : string -> string.
Variable ioutil_ReadFile : string -> list Byte.byte * option error.
Variable yaml_Unmarshal : list Byte.byte -> Client -> Client * option error.

(** C10.  Whenever the file can be read and its contents decode,
    [ClientFromFile] returns the decoded record with a nil error, whatever
    the record holds.  A record without a provider or without a password is
    returned like any other; it is [FS] that then fails on it. *)
Theorem ClientFromFile_no_validation
  (path : string) (raw : list Byte.byte) (parsed : Client) :
  ioutil_ReadFile path = (raw, None) ->
  yaml_Unmarshal raw zeroClient = (parsed, None) ->
  ClientFromFile ioutil_ReadFile yaml_Unmarshal path = (Some parsed, None)
  /\ (Provider parsed = None ->
      forall mountPath h,
        fst (FS env path_Join path_Dir mountPath (mkWorld parsed h))
        = Done (None, Some NoProviderConfigured))
  /\ (Password parsed = ""%string ->
      forall mountPath h,
      exists e,
        fst (FS env path_Join path_Dir mountPath (mkWorld parsed h))
        = Done (None, Some e)).
Proof.
  intros Hr Hu. split; [|split].
  - unfold ClientFromFile. rewrite Hr, Hu. reflexivity.
  - intros Hp mountPath h. apply FS_without_provider. exact Hp.
  - intros Hp mountPath h. apply FS_without_password. exact Hp.
Qed.

End Loading.


(** ** Runs on the sample configurations *)



Lemma FS_encryption_wraps_integrity_witness :
  let w := emptyLog sampleClient in
  let run := FS all_succeed GoPath.Join GoPath.Dir "/mnt/utahfs" w in
  run = (Done (Some sampleHandle, None), snd run)
  /\ exists rel pin numPtrs dataSize c1 c2 older,
      let pw := Password (cfg w) in
      let framed := simpleBlock (bufferedStorage rel) in
      sampleHandle
      = blockFilesystem
          (appStorage (encryption (integrity framed pw pin) pw))
          numPtrs dataSize
      /\ log (snd run)
         = c1 :: c2 :: CWithEncryption (integrity framed pw pin) pw
           :: CWithIntegrity framed pw pin :: older
      /\ flow sampleHandle
         = ([(LFilesystem, Plaintext); (LAppStorage, Plaintext);
             (LEncryption, Plaintext); (LIntegrity, Ciphertext);
             (LFramer, Ciphertext); (LBuffer, Ciphertext)]
            ++ flow_reliable rel Ciphertext)%list
      /\ all_form Ciphertext (flow_reliable rel Ciphertext) = true.
Proof.
  cbv zeta.
  assert (E : FS all_succeed GoPath.Join GoPath.Dir "/mnt/utahfs"
                 (emptyLog sampleClient)
              = (Done (Some sampleHandle, None),
                 snd (FS all_succeed GoPath.Join GoPath.Dir "/mnt/utahfs"
                         (emptyLog sampleClient))))
    by (vm_compute; reflexivity).
  split; [exact E|].
  exact (FS_encryption_wraps_integrity all_succeed GoPath.Join GoPath.Dir
           "/mnt/utahfs" (emptyLog sampleClient) _ sampleHandle E).
Defined.

Lemma Store_both_groups_ambiguous_witness :
  let w := emptyLog zeroClient in
  B2_field_set partialBoth /\ S3_field_set partialBoth
  /\ Store all_succeed (Some partialBoth) w
     = (Done (nilObjectStorage, Some AmbiguousProvider), w)
  /\ new_calls w (snd (Store all_succeed (Some partialBoth) w)) = [].
Proof.
  cbv zeta.
  assert (HB : B2_field_set partialBoth)
    by (right; right; left; discriminate).
  assert (HS : S3_field_set partialBoth)
    by (right; right; right; right; discriminate).
  split; [exact HB|]. split; [exact HS|].
  exact (Store_both_groups_ambiguous all_succeed partialBoth
           (emptyLog zeroClient) HB HS).
Defined.

Lemma Store_no_group_no_provider_witness :
  let w := emptyLog zeroClient in
  ~ B2_field_set emptyProvider /\ ~ S3_field_set emptyProvider
  /\ Store all_succeed (Some emptyProvider) w
     = (Done (nilObjectStorage, Some NoProviderConfigured), w)
  /\ new_calls w (snd (Store all_succeed (Some emptyProvider) w)) = [].
Proof.
  cbv zeta.
  assert (HB : ~ B2_field_set emptyProvider)
    by (apply hasB2_false; reflexivity).
  assert (HS : ~ S3_field_set emptyProvider)
    by (apply hasS3_false; reflexivity).
  split; [exact HB|]. split; [exact HS|].
  exact (Store_no_group_no_provider all_succeed emptyProvider
           (emptyLog zeroClient) HB HS).
Defined.

Lemma Store_retry_exactly_above_one_witness :
  let w := emptyLog zeroClient in
  let s := onlyS3_retry3 in
  let out := retry (s3 "app" "key" "bucket" "https://s3.example" "us-east-1")
                   3 in
  let w' := snd (Store all_succeed (Some s) w) in
  Store all_succeed (Some s) w = (Done (out, None), w')
  /\ is_retry (backend_of s) = false
  /\ is_retry out = (Retry s >? 1)
  /\ (1 < Retry s ->
      out = retry (backend_of s) (Retry s)
      /\ new_calls w w'
         = [CNewRetry (backend_of s) (Retry s); connect_call s])
  /\ (Retry s <= 1 ->
      out = backend_of s /\ new_calls w w' = [connect_call s]).
Proof.
  cbv zeta.
  assert (E : Store all_succeed (Some onlyS3_retry3) (emptyLog zeroClient)
              = (Done (retry (s3 "app" "key" "bucket" "https://s3.example"
                                 "us-east-1") 3, None),
                 snd (Store all_succeed (Some onlyS3_retry3)
                            (emptyLog zeroClient))))
    by (vm_compute; reflexivity).
  split; [exact E|].
  exact (Store_retry_exactly_above_one all_succeed onlyS3_retry3
           (emptyLog zeroClient) _ _ E).
Defined.

(** With a bound of 0 the backend comes back unwrapped. *)
Example Store_onlyB2_unwrapped :
  fst (Store all_succeed (Some onlyB2) (emptyLog zeroClient))
  = Done (b2 "acct" "key" "bucket" "https://b2.example", None).
Proof. reflexivity. Qed.


(** C7 as stated fails on the code.  When the WAL cannot be set up, [FS]
    fails and returns a nil handle, but the record the receiver points to
    has been changed: the data directory and the WAL capacity hold their
    defaults. *)
Lemma FS_failed_run_changes_record :
  let c := rawClient (Some onlyB2) "hunter2" in
  let run := FS wal_fails GoPath.Join GoPath.Dir "/mnt/utahfs" (emptyLog c) in
  fst run = Done (None, Some (Errorf "wal: permission denied"))
  /\ cfg (snd run)
     = mkClient "/mnt/.utahfs" (Some onlyB2) (64 * 512) 0 "hunter2" 0 0
  /\ cfg (snd run) <> c.
Proof.
  cbv zeta. split; [vm_compute; reflexivity|].
  split; [vm_compute; reflexivity|].
  vm_compute. discriminate.
Qed.

Lemma FS_failure_effects_witness :
  let c := rawClient (Some onlyB2) "hunter2" in
  let run := FS wal_fails GoPath.Join GoPath.Dir "/mnt/utahfs" (emptyLog c) in
  let r := (@None BlockFilesystem, Some (Errorf "wal: permission denied")) in
  let c' := cfg (snd run) in
  run = (Done r, snd run)
  /\ snd r <> None
  /\ fst r = None
  /\ Password c' = Password c
  /\ Provider c' = Provider c
  /\ DataDir c' = (if String.eqb (DataDir c) "" then
                     GoPath.Join (GoPath.Dir "/mnt/utahfs") ".utahfs"
                   else DataDir c)
  /\ (MaxWALSize c' = MaxWALSize c
      \/ (MaxWALSize c = 0 /\ MaxWALSize c' = 64 * 512))
  /\ (CacheSize c' = CacheSize c
      \/ (CacheSize c = 0 /\ CacheSize c' = 32 * 1024))
  /\ (NumPtrs c' = NumPtrs c \/ (NumPtrs c = 0 /\ NumPtrs c' = 12))
  /\ (DataSize c' = DataSize c
      \/ (DataSize c = 0 /\ DataSize c' = 32 * 1024)).
Proof.
  cbv zeta.
  assert (E : FS wal_fails GoPath.Join GoPath.Dir "/mnt/utahfs"
                 (emptyLog (rawClient (Some onlyB2) "hunter2"))
              = (Done (@None BlockFilesystem,
                       Some (Errorf "wal: permission denied")),
                 snd (FS wal_fails GoPath.Join GoPath.Dir "/mnt/utahfs"
                         (emptyLog (rawClient (Some onlyB2) "hunter2")))))
    by (vm_compute; reflexivity).
  assert (N : snd (@None BlockFilesystem,
                   Some (Errorf "wal: permission denied")) <> None)
    by discriminate.
  split; [exact E|]. split; [exact N|].
  exact (FS_failure_effects wal_fails GoPath.Join GoPath.Dir "/mnt/utahfs"
           (emptyLog (rawClient (Some onlyB2) "hunter2")) _ _ E N).
Defined.

(** The defaults of the sample record, and a second application. *)
Example defaults_sample :
  defaults GoPath.Join GoPath.Dir "/mnt/utahfs" sampleClient
  = mkClient "/mnt/.utahfs" (Some onlyS3_retry3) 32768 32768 "pw" 12 32768
  /\ defaults GoPath.Join GoPath.Dir "/mnt/utahfs"
       (defaults GoPath.Join GoPath.Dir "/mnt/utahfs" sampleClient)
     = defaults GoPath.Join GoPath.Dir "/mnt/utahfs" sampleClient.
Proof. split; reflexivity. Qed.

(** A record with the disabled-cache sentinel keeps it. *)
Example defaults_keep_sentinel :
  CacheSize (defaults GoPath.Join GoPath.Dir "/mnt/utahfs" noCacheClient) = -1.
Proof. reflexivity. Qed.

Lemma ClientFromFile_no_validation_witness :
  emptyFiles "/etc/utahfs.yaml" = ([], None)
  /\ decodeEmpty [] zeroClient = (zeroClient, None)
  /\ ClientFromFile emptyFiles decodeEmpty "/etc/utahfs.yaml"
     = (Some zeroClient, None)
  /\ (Provider zeroClient = None ->
      forall mountPath h,
        fst (FS all_succeed GoPath.Join GoPath.Dir mountPath
                (mkWorld zeroClient h))
        = Done (None, Some NoProviderConfigured))
  /\ (Password zeroClient = "" ->
      forall mountPath h,
      exists e,
        fst (FS all_succeed GoPath.Join GoPath.Dir mountPath
                (mkWorld zeroClient h))
        = Done (None, Some e)).
Proof.
  split; [reflexivity|]. split; [reflexivity|].
  exact (ClientFromFile_no_validation all_succeed GoPath.Join GoPath.Dir
           emptyFiles decodeEmpty "/etc/utahfs.yaml" [] zeroClient
           eq_refl eq_refl).
Defined.

(** * Further properties of the selection *)

Lemma stage_connect (s : StorageProvider) : stage (connect_call s) = 1%nat.
Proof. unfold connect_call. destruct (hasB2 s); reflexivity. Qed.

Lemma is_connect_connect (s : StorageProvider) :
  is_connect (connect_call s) = true.
Proof. unfold connect_call. destruct (hasB2 s); reflexivity. Qed.

Section SelectionRuns.

Variable env : list Call -> Call -> option error.

(** What a successful [Store] has done. *)
Lemma Store_success_inv
  (sp : option StorageProvider) (w w' : World) (out : ObjectStorage) :
  Store env sp w = (Done (out, None), w') ->
  exists s,
    sp = Some s
    /\ one_group s = true
    /\ out = (if Retry s >? 1 then retry (backend_of s) (Retry s)
              else backend_of s)
    /\ w' = mkWorld (cfg w)
                    ((if Retry s >? 1 then
                        [CNewRetry (backend_of s) (Retry s); connect_call s]
                      else [connect_call s]) ++ log w)%list.
Proof.
  destruct sp as [s|]; [|rewrite Store_nil; discriminate].
  rewrite Store_Some. unfold one_group. intros H. exists s.
  destruct (hasB2 s), (hasS3 s); cbn in H; try discriminate.
  all: destruct (env (log w) (connect_call s)); [discriminate|].
  all: destruct (Retry s >? 1);
    [destruct (env _ _); [discriminate|]|];
    injection H as <- <-; repeat split; reflexivity.
Qed.

(** The calls of any run of [Store]: none, the connection, or the
    connection and then the retry wrapper. *)
Lemma Store_calls_shape (sp : option StorageProvider) (w : World) :
  exists l,
    snd (Store env sp w) = mkWorld (cfg w) (l ++ log w)%list
    /\ (l = []
        \/ exists s,
             sp = Some s /\ one_group s = true
             /\ (l = [connect_call s]
                 \/ (1 < Retry s
                     /\ l = [CNewRetry (backend_of s) (Retry s);
                             connect_call s]))).
Proof.
  destruct sp as [s|];
    [|rewrite Store_nil; exists []; destruct w; cbn; auto].
  rewrite Store_Some.
  assert (shape : one_group s = true ->
                  forall l,
                    l = [connect_call s]
                    \/ (1 < Retry s
                        /\ l = [CNewRetry (backend_of s) (Retry s);
                                connect_call s]) ->
                    l = []
                    \/ exists s',
                         Some s = Some s' /\ one_group s' = true
                         /\ (l = [connect_call s']
                             \/ (1 < Retry s'
                                 /\ l = [CNewRetry (backend_of s') (Retry s');
                                         connect_call s'])))
    by (intros Hg l Hl; right; exists s; auto).
  unfold one_group in shape at 1.
  destruct (hasB2 s), (hasS3 s); cbn [negb andb xorb] in *;
    try (exists []; destruct w; cbn; auto; fail).
  all: specialize (shape eq_refl); cbn zeta.
  all: destruct (env (log w) (connect_call s));
    [exists [connect_call s]; split; [reflexivity|apply shape; auto]|].
  all: destruct (Z.gtb_spec (Retry s) 1);
    [|exists [connect_call s]; split; [reflexivity|apply shape; auto]].
  all: cbn [log]; destruct (env _ _);
    exists [CNewRetry (backend_of s) (Retry s); connect_call s];
    (split; [reflexivity|apply shape; auto]).
Qed.

(** X1.  [Store] contacts the backend whose credentials are given and no
    other: in every run it connects at most once, with the fields of the
    record as arguments, never to S3 when a B2 field is set and never to
    B2 when none is; and it leaves the configuration as it was. *)
Theorem Store_connects_selected_backend (s : StorageProvider) (w : World) :
  let w' := snd (Store env (Some s) w) in
  let l := new_calls w w' in
  cfg w' = cfg w
  /\ (length (filter is_connect l) <= 1)%nat
  /\ (forall call, In call l -> is_connect call = true ->
                   call = connect_call s)
  /\ (hasB2 s = true -> existsb is_s3_call l = false)
  /\ (hasB2 s = false -> existsb is_b2_call l = false).
Proof.
  cbn zeta.
  destruct (Store_calls_shape (Some s) w) as (l & E & Hl). rewrite E.
  cbn [cfg]. rewrite (new_calls_app w _ l) by reflexivity.
  assert (Hsel : (hasB2 s = true -> is_s3_call (connect_call s) = false)
                 /\ (hasB2 s = false -> is_b2_call (connect_call s) = false))
    by (unfold connect_call; destruct (hasB2 s); split; intros;
        first [reflexivity | discriminate]).
  destruct Hsel as [HB HS].
  pose proof (is_connect_connect s) as Hc.
  destruct Hl as [->|(s' & Hs' & _ & [->|[_ ->]])];
    try (injection Hs' as <-); cbn; rewrite ?Hc; cbn.
  all: split; [reflexivity|]; split; [lia|].
  all: split;
    [|split; intros Hh;
      [rewrite ?(HB Hh); reflexivity|rewrite ?(HS Hh); reflexivity]].
  all: intros call Hin Hcc;
    repeat match goal with
           | H : _ \/ _ |- _ => destruct H as [<-|H]
           end;
    first [reflexivity | discriminate | contradiction].
Qed.

(** X2.  A run of [Store] that fails returns a nil store.  Its error is
    one of the two errors of the selection itself, with no call made, or
    the error the environment gave to the newest call in the log: a failed
    connection is reported as it is, and so is a failed retry wrapper, whose
    backend is then not returned. *)
Theorem Store_failure_cause
  (sp : option StorageProvider) (w w' : World) (out : ObjectStorage)
  (e : error) :
  Store env sp w = (Done (out, Some e), w') ->
  out = nilObjectStorage
  /\ ((w' = w /\ (e = NoProviderConfigured \/ e = AmbiguousProvider))
      \/ exists call older,
           log w' = call :: older /\ env older call = Some e
           /\ is_backend call = true).
Proof.
  intros H.
  destruct (Store_runs env sp w) as (out' & err & l & E & Hl & Hr).
  rewrite E in H. injection H as -> -> <-.
  destruct Hr as [-> [[-> He]|(call & l' & -> & He)]].
  - split; [reflexivity|]. left. destruct w; auto.
  - split; [reflexivity|]. right. exists call, (l' ++ log w)%list.
    cbn in Hl. apply andb_true_iff in Hl. destruct Hl as [Hc _].
    auto.
Qed.

End SelectionRuns.

(** * Further properties of the composition *)

Lemma flow_backend (s : StorageProvider) (f : Form) :
  flow_object (backend_of s) f = [(LBackend, f)].
Proof. unfold backend_of. destruct (hasB2 s); reflexivity. Qed.

(** Read the calls of [Store] off its recorded run. *)
Ltac store_calls :=
  match goal with
  | ES : Store ?env ?sp ?w0 = (_, mkWorld _ (?l ++ _)%list) |- _ =>
      let l0 := fresh "l0" in
      let E0 := fresh "E0" in
      let Hshape := fresh "Hshape" in
      destruct (Store_calls_shape env sp w0) as (l0 & E0 & Hshape);
      rewrite ES in E0; cbn [snd cfg log] in E0;
      injection E0 as E0; apply app_inv_tail in E0; subst l0
  end.

(** Read the result of a successful [Store] off its recorded run. *)
Ltac store_ok :=
  match goal with
  | ES : Store ?env ?sp ?w0 = (Done (?out, None), mkWorld _ (?l ++ _)%list)
    |- _ =>
      let s := fresh "s" in
      let Hsp := fresh "Hsp" in
      let Hg := fresh "Hg" in
      let Hout := fresh "Hout" in
      let Hw := fresh "Hw" in
      destruct (Store_success_inv env sp w0 _ out ES)
        as (s & Hsp & Hg & Hout & Hw);
      cbn [cfg log] in Hw; injection Hw as Hw; apply app_inv_tail in Hw;
      let Er := fresh "Er" in
      destruct (Retry s >? 1) eqn:Er; subst out l
  end.

Ltac int_props :=
  repeat match goal with
         | H : negb _ = true |- _ => apply negb_true_iff in H
         | H : negb _ = false |- _ => apply negb_false_iff in H
         | H : (_ =? _) = true |- _ => apply Z.eqb_eq in H
         | H : (_ =? _) = false |- _ => apply Z.eqb_neq in H
         end.


Section CompositionRuns.

Variable env : list Call -> Call -> option error.
Variable path_Join : string -> string -> string.
Variable path_Dir : string -> string.


(** X4.  A failing run of [FS] stops at the step that failed and reports
    that step's error as it is.  Either the selection refused the record
    and nothing was called; or the newest call in the log is the
    constructor that failed, and the error is the one it gave; or the
    password is empty, the error is the missing-password error, and the
    newest call is the block framer's. *)
Theorem FS_failure_cause
  (mountPath : string) (w w' : World) (h : option BlockFilesystem)
  (e : error) :
  FS env path_Join path_Dir mountPath w = (Done (h, Some e), w') ->
  h = None
  /\ ((new_calls w w' = []
       /\ (e = NoProviderConfigured \/ e = AmbiguousProvider))
      \/ (exists call older,
             log w' = call :: older /\ env older call = Some e)
      \/ (e = MissingCredential
          /\ Password (cfg w) = ""%string
          /\ exists framed older, log w' = CNewSimpleBlock framed :: older)).
Proof.
  intros H.
  refine (wp_at (FS env path_Join path_Dir mountPath)
            (fun r w' => forall hh ee, r = (hh, Some ee) -> _) w w' _ _ H h e
            eq_refl).
  clear. wp_walk; intros hh ee Hr'; try discriminate.
  all: injection Hr' as <- <-; (split; [reflexivity|]).
  all: try (right; left; do 2 eexists; split; [reflexivity|eassumption]).
  all: lazymatch goal with
       | Hr : _ /\ (_ \/ _) |- _ =>
           destruct Hr as [_ [[-> He]|(call & l' & -> & He)]];
           [ left; split; [calls; reflexivity|exact He]
           | right; left; exists call, (l' ++ log w)%list; auto ]
       | _ =>
           right; right; cfg_cases;
           (split; [reflexivity|]);
           (split;
            [apply String.eqb_eq; assumption|do 2 eexists; reflexivity])
       end.
Qed.

(** X5.  [FS] returns a handle only for a configuration with a password
    and a provider record in which exactly one credential group has a
    field set. *)
Theorem FS_handle_requires
  (mountPath : string) (w w' : World) (fs : BlockFilesystem) :
  FS env path_Join path_Dir mountPath w = (Done (Some fs, None), w') ->
  Password (cfg w) <> ""%string
  /\ exists s, Provider (cfg w) = Some s /\ one_group s = true.
Proof.
  intros H.
  refine (wp_at (FS env path_Join path_Dir mountPath)
            (fun r w' => forall fs, r = (Some fs, None) -> _) w w' _ _ H fs
            eq_refl).
  clear. wp_walk; intros fs Hfs; try discriminate.
  all: store_ok; cfg_cases.
  all: split; [apply String.eqb_neq; assumption|exists s; auto].
Qed.

(** With exactly one credential group and constructors that succeed,
    [Store] returns the backend, wrapped if the bound exceeds 1. *)
Lemma Store_succeeds (s : StorageProvider) (w : World) :
  (forall h call, env h call = None) ->
  one_group s = true ->
  exists l,
    Store env (Some s) w
    = (Done (if Retry s >? 1 then retry (backend_of s) (Retry s)
             else backend_of s, None),
       mkWorld (cfg w) (l ++ log w)%list).
Proof.
  intros Hno Hg. rewrite Store_Some. unfold one_group in Hg.
  destruct (hasB2 s), (hasS3 s); try discriminate; cbn.
  all: rewrite Hno; destruct (Retry s >? 1); rewrite ?Hno.
  all: first [ exists [CNewRetry (backend_of s) (Retry s); connect_call s];
               reflexivity
             | exists [connect_call s]; reflexivity ].
Qed.

(** X6.  When every constructor succeeds, [FS] returns a handle for every
    configuration with a password and a provider record in which exactly
    one credential group has a field set. *)
Theorem FS_succeeds_when
  (mountPath : string) (w : World) (s : StorageProvider) :
  (forall h call, env h call = None) ->
  Password (cfg w) <> ""%string ->
  Provider (cfg w) = Some s ->
  one_group s = true ->
  exists fs w',
    FS env path_Join path_Dir mountPath w = (Done (Some fs, None), w').
Proof.
  intros Hno Hpw Hp Hg.
  assert (G : wp (FS env path_Join path_Dir mountPath)
                (fun r _ => exists fs, r = (Some fs, None)) w).
  { wp_walk.
    all: try match goal with
             | Ee : env _ _ = Some _ |- _ => rewrite Hno in Ee; discriminate
             end.
    all: cfg_cases.
    all: try match goal with
             | Eb : String.eqb (Password _) _ = true |- _ =>
                 apply String.eqb_eq in Eb; contradiction
             end.
    all: try match goal with
             | ES : Store _ _ ?w0 = (Done (_, Some _), _) |- _ =>
                 rewrite Hp in ES;
                 destruct (Store_succeeds s w0 Hno Hg) as (l1 & E1);
                 rewrite E1 in ES; discriminate
             end.
    all: eexists; reflexivity. }
  destruct (wp_result _ _ _ G) as (r & w' & E & fs & ->). eauto.
Qed.

(** X7.  The layers of every handle [FS] returns, top first: filesystem,
    application storage, encryption, integrity, block framer, buffer, the
    cache unless the cache capacity is -1, the WAL, the retry wrapper if the
    bound exceeds 1, and the backend. *)
Theorem FS_layer_order
  (mountPath : string) (w w' : World) (fs : BlockFilesystem) :
  FS env path_Join path_Dir mountPath w = (Done (Some fs, None), w') ->
  exists s,
    Provider (cfg w) = Some s
    /\ layers fs
       = ([LFilesystem; LAppStorage; LEncryption; LIntegrity; LFramer;
           LBuffer]
          ++ (if CacheSize (cfg w) =? -1 then [] else [LCache])
          ++ [LWAL]
          ++ (if Retry s >? 1 then [LRetry] else [])
          ++ [LBackend])%list.
Proof.
  intros H.
  refine (wp_at (FS env path_Join path_Dir mountPath)
            (fun r w' => forall fs, r = (Some fs, None) -> _) w w' _ _ H fs
            eq_refl).
  clear. wp_walk; intros fs Hfs; try discriminate.
  all: injection Hfs as <-; store_ok; cfg_cases; int_props.
  all: eexists; (split; [eassumption|]).
  all: unfold layers;
    repeat match goal with
           | H : (Retry _ >? 1) = _ |- _ => rewrite H
           end.
  all: cbn [flow flow_app flow_block flow_buffered flow_reliable flow_object
            map fst app].
  all: destruct (Z.eqb_spec (CacheSize (cfg w)) (-1)); try (exfalso; lia).
  all: rewrite flow_backend; reflexivity.
Qed.

(** X8.  In every run of [FS] the log only grows, each call builds a layer
    above all the layers built before it in the run, so that no
    constructor is called twice, and at most one connection to a backend
    is made. *)
Theorem FS_construction_order (mountPath : string) (w : World) :
  let w' := snd (FS env path_Join path_Dir mountPath w) in
  let l := new_calls w w' in
  log w' = (l ++ log w)%list
  /\ descending (map stage l) = true
  /\ (length (filter is_connect l) <= 1)%nat.
Proof.
  cbn zeta.
  apply (wp_snd (FS env path_Join path_Dir mountPath)
           (fun w' =>
              log w' = (new_calls w w' ++ log w)%list
              /\ descending (map stage (new_calls w w')) = true
              /\ (length (filter is_connect (new_calls w w')) <= 1)%nat)).
  wp_walk.
  all: store_calls.
  all: destruct Hshape as [->|(s & _ & _ & [->|[_ ->]])].
  all: calls; cbn [app map stage filter is_connect log];
    rewrite ?stage_connect, ?is_connect_connect;
    cbn [filter is_connect length];
    rewrite ?is_connect_connect; cbn [length].
  all: split; [reflexivity|]; split; [reflexivity|lia].
Qed.


(** X10.  The mount path is used for nothing but the default of the data
    directory: with a data directory configured, [FS] does the same for
    every mount path. *)
Theorem FS_mount_path_unused (mountPath mountPath' : string) (w : World) :
  DataDir (cfg w) <> ""%string ->
  FS env path_Join path_Dir mountPath w
  = FS env path_Join path_Dir mountPath' w.
Proof.
  intros Hd. apply String.eqb_neq in Hd.
  assert (first_step : forall (A B : Type) (f : Client -> A) (k : A -> M B),
             bind (getf f) k w = k (f (cfg w)) w) by reflexivity.
  unfold FS. rewrite !first_step, Hd. reflexivity.
Qed.

(** X11.  [FS] never changes what the configuration gives: in every run,
    successful or not, the password and the provider record are left as
    they were, and so is the data directory unless it was empty and each
    sizing field unless it was zero. *)
Theorem FS_keeps_set_fields
  (mountPath : string) (w w' : World)
  (r : option BlockFilesystem * option error) :
  FS env path_Join path_Dir mountPath w = (Done r, w') ->
  let c := cfg w in
  let c' := cfg w' in
  Password c' = Password c
  /\ Provider c' = Provider c
  /\ (DataDir c <> ""%string -> DataDir c' = DataDir c)
  /\ (MaxWALSize c <> 0 -> MaxWALSize c' = MaxWALSize c)
  /\ (CacheSize c <> 0 -> CacheSize c' = CacheSize c)
  /\ (NumPtrs c <> 0 -> NumPtrs c' = NumPtrs c)
  /\ (DataSize c <> 0 -> DataSize c' = DataSize c).
Proof.
  intros H.
  refine (wp_at (FS env path_Join path_Dir mountPath) (fun r w' => _)
            w w' r _ H).
  clear. wp_walk; cfg_cases; cbn zeta; int_props.
  all: repeat match goal with
              | H : String.eqb _ _ = true |- _ => apply String.eqb_eq in H
              end.
  all: cbn [cfg DataDir Provider MaxWALSize CacheSize Password NumPtrs
            DataSize].
  all: repeat split; intros; first [reflexivity | congruence | contradiction].
Qed.

End CompositionRuns.

(** * Further properties of the loader *)

Section LoadingRuns.

Variable ioutil_ReadFile : string -> list Byte.byte * option error.
Variable yaml_Unmarshal : list Byte.byte -> Client -> Client * option error.

(** X12.  Of the record and the error [ClientFromFile] returns exactly one
    is nil.  An error of the read is returned as it is, whatever the
    decoder would do; an error of the decoder, which is run on the bytes
    read and the zero record, is returned as it is, and the record it was
    filling is not. *)
Theorem ClientFromFile_failure (path : string) :
  let r := ClientFromFile ioutil_ReadFile yaml_Unmarshal path in
  let read := ioutil_ReadFile path in
  let decoded := yaml_Unmarshal (fst read) zeroClient in
  (fst r = None <-> snd r <> None)
  /\ (forall e, snd read = Some e -> r = (None, Some e))
  /\ (forall e, snd read = None -> snd decoded = Some e ->
                r = (None, Some e))
  /\ (snd read = None -> snd decoded = None ->
      r = (Some (fst decoded), None)).
Proof.
  cbn zeta. unfold ClientFromFile.
  destruct (ioutil_ReadFile path) as [raw [e|]]; cbn [fst snd].
  - repeat split; intros; congruence.
  - destruct (yaml_Unmarshal raw zeroClient) as [p [e|]]; cbn [fst snd];
      repeat split; intros; congruence.
Qed.

End LoadingRuns.

(** ** Further runs on the sample configurations *)

Lemma Store_failure_cause_witness :
  let w := emptyLog zeroClient in
  let e := Errorf "backend: unauthorized" in
  let w' := mkWorld zeroClient [connect_call onlyS3_retry3] in
  Store connect_fails (Some onlyS3_retry3) w
  = (Done (nilObjectStorage, Some e), w')
  /\ nilObjectStorage = nilObjectStorage
  /\ ((w' = w /\ (e = NoProviderConfigured \/ e = AmbiguousProvider))
      \/ exists call older,
           log w' = call :: older /\ connect_fails older call = Some e
           /\ is_backend call = true).
Proof.
  cbv zeta.
  assert (E : Store connect_fails (Some onlyS3_retry3) (emptyLog zeroClient)
              = (Done (nilObjectStorage,
                       Some (Errorf "backend: unauthorized")),
                 mkWorld zeroClient [connect_call onlyS3_retry3]))
    by reflexivity.
  split; [exact E|].
  exact (Store_failure_cause connect_fails _ _ _ _ _ E).
Defined.

Lemma FS_failure_cause_witness :
  let w := emptyLog (rawClient (Some onlyB2) "hunter2") in
  let run := FS wal_fails GoPath.Join GoPath.Dir "/mnt/utahfs" w in
  let e := Errorf "wal: permission denied" in
  run = (Done (None, Some e), snd run)
  /\ @None BlockFilesystem = None
  /\ ((new_calls w (snd run) = []
       /\ (e = NoProviderConfigured \/ e = AmbiguousProvider))
      \/ (exists call older,
             log (snd run) = call :: older /\ wal_fails older call = Some e)
      \/ (e = MissingCredential
          /\ Password (cfg w) = ""
          /\ exists framed older,
               log (snd run) = CNewSimpleBlock framed :: older)).
Proof.
  cbv zeta.
  assert (E : FS wal_fails GoPath.Join GoPath.Dir "/mnt/utahfs"
                 (emptyLog (rawClient (Some onlyB2) "hunter2"))
              = (Done (None, Some (Errorf "wal: permission denied")),
                 snd (FS wal_fails GoPath.Join GoPath.Dir "/mnt/utahfs"
                         (emptyLog (rawClient (Some onlyB2) "hunter2")))))
    by (vm_compute; reflexivity).
  split; [exact E|].
  exact (FS_failure_cause wal_fails GoPath.Join GoPath.Dir "/mnt/utahfs"
           _ _ _ _ E).
Defined.

Lemma FS_sample_run :
  FS all_succeed GoPath.Join GoPath.Dir "/mnt/utahfs" (emptyLog sampleClient)
  = (Done (Some sampleHandle, None),
     snd (FS all_succeed GoPath.Join GoPath.Dir "/mnt/utahfs"
             (emptyLog sampleClient))).
Proof. vm_compute. reflexivity. Defined.

Lemma FS_handle_requires_witness :
  let w := emptyLog sampleClient in
  let run := FS all_succeed GoPath.Join GoPath.Dir "/mnt/utahfs" w in
  run = (Done (Some sampleHandle, None), snd run)
  /\ Password (cfg w) <> ""
  /\ exists s, Provider (cfg w) = Some s /\ one_group s = true.
Proof.
  cbv zeta. split; [exact FS_sample_run|].
  exact (FS_handle_requires all_succeed GoPath.Join GoPath.Dir "/mnt/utahfs"
           _ _ _ FS_sample_run).
Defined.

Lemma FS_succeeds_when_witness :
  let w := emptyLog sampleClient in
  (forall h call, all_succeed h call = None)
  /\ Password (cfg w) <> ""
  /\ Provider (cfg w) = Some onlyS3_retry3
  /\ one_group onlyS3_retry3 = true
  /\ exists fs w',
      FS all_succeed GoPath.Join GoPath.Dir "/mnt/utahfs" w
      = (Done (Some fs, None), w').
Proof.
  cbv zeta.
  assert (Hno : forall h call, all_succeed h call = None)
    by (intros h call; reflexivity).
  assert (Hpw : Password (cfg (emptyLog sampleClient)) <> "")
    by discriminate.
  split; [exact Hno|]. split; [exact Hpw|].
  split; [reflexivity|]. split; [reflexivity|].
  exact (FS_succeeds_when all_succeed GoPath.Join GoPath.Dir "/mnt/utahfs"
           (emptyLog sampleClient) onlyS3_retry3 Hno Hpw eq_refl eq_refl).
Defined.

Lemma FS_layer_order_witness :
  let w := emptyLog sampleClient in
  let run := FS all_succeed GoPath.Join GoPath.Dir "/mnt/utahfs" w in
  run = (Done (Some sampleHandle, None), snd run)
  /\ exists s,
      Provider (cfg w) = Some s
      /\ layers sampleHandle
         = ([LFilesystem; LAppStorage; LEncryption; LIntegrity; LFramer;
             LBuffer]
            ++ (if CacheSize (cfg w) =? -1 then [] else [LCache])
            ++ [LWAL]
            ++ (if Retry s >? 1 then [LRetry] else [])
            ++ [LBackend])%list.
Proof.
  cbv zeta. split; [exact FS_sample_run|].
  exact (FS_layer_order all_succeed GoPath.Join GoPath.Dir "/mnt/utahfs"
           _ _ _ FS_sample_run).
Defined.

(** The layers of the sample handle, and of a handle without cache. *)
Example layers_sample :
  layers sampleHandle
  = [LFilesystem; LAppStorage; LEncryption; LIntegrity; LFramer; LBuffer;
     LCache; LWAL; LRetry; LBackend].
Proof. reflexivity. Qed.


Lemma FS_mount_path_unused_witness :
  let w := emptyLog noCacheClient in
  DataDir (cfg w) <> ""
  /\ FS all_succeed GoPath.Join GoPath.Dir "/mnt/utahfs" w
     = FS all_succeed GoPath.Join GoPath.Dir "/home/user/fs" w.
Proof.
  cbv zeta.
  assert (Hd : DataDir (cfg (emptyLog noCacheClient)) <> "") by discriminate.
  split; [exact Hd|].
  exact (FS_mount_path_unused all_succeed GoPath.Join GoPath.Dir
           "/mnt/utahfs" "/home/user/fs" (emptyLog noCacheClient) Hd).
Defined.

Lemma FS_keeps_set_fields_witness :
  let w := emptyLog sampleClient in
  let run := FS all_succeed GoPath.Join GoPath.Dir "/mnt/utahfs" w in
  let c := cfg w in
  let c' := cfg (snd run) in
  run = (Done (Some sampleHandle, None), snd run)
  /\ Password c' = Password c
  /\ Provider c' = Provider c
  /\ (DataDir c <> "" -> DataDir c' = DataDir c)
  /\ (MaxWALSize c <> 0 -> MaxWALSize c' = MaxWALSize c)
  /\ (CacheSize c <> 0 -> CacheSize c' = CacheSize c)
  /\ (NumPtrs c <> 0 -> NumPtrs c' = NumPtrs c)
  /\ (DataSize c <> 0 -> DataSize c' = DataSize c).
Proof.
  cbv zeta. split; [exact FS_sample_run|].
  exact (FS_keeps_set_fields all_succeed GoPath.Join GoPath.Dir "/mnt/utahfs"
           _ _ _ FS_sample_run).
Defined.
